(** * create_sprite_frames.py: a shallow embedding and its properties

    The script lists sprite folders, splits the file names by prefix
    ([stand_], [move_], [chase_]), sorts them, assembles (and then discards)
    the text of a Godot SpriteFrames resource, and at top level only prints
    the table of creatures.

    Python values are embedded as follows.
    - [str] is [string]: a Python string is represented by its UTF-8 bytes.
      UTF-8 keeps the order of code points, so the bytewise lexicographic
      order [String.le] is the order [sorted] uses on [str], and a test
      [startswith] against an ASCII prefix is a test on the leading bytes.
    - [list] of [str] is [list string]; the [dict] literal [CREATURES] is an
      association list in insertion order, which is the order [.items()]
      iterates in (its keys are pairwise distinct, see [CREATURES_keys_NoDup]).
    - [pathlib.Path] is an interface ([PathFlavour]): the script only builds
      a path from a string, joins with [/] and converts back with [str].
    - Effects ([os.listdir], [print], exceptions) live in the monad [IO]:
      a computation reads the world, emits a trace of events and either
      raises an exception or returns a value. *)

From Stdlib Require Import Ascii.
From stdpp Require Import base strings list sorting.

(** ** Strings *)

(** The line feed and the double quote, which the script writes as escapes
    inside its literals. *)
Definition LF : string := String "010"%char EmptyString.
Definition DQ : string := String "034"%char EmptyString.

(** [s.startswith(prefix)] *)
Definition startswith (s prefix : string) : bool := String.prefix prefix s.

(** [s.endswith(suffix)] *)
Definition endswith (s suffix : string) : bool :=
  String.prefix (String.rev suffix) (String.rev s).

(** [sep.join(items)] *)
Fixpoint join (sep : string) (items : list string) : string :=
  match items with
  | [] => EmptyString
  | [x] => x
  | x :: rest => x +:+ sep +:+ join sep rest
  end.

(** [sorted(items)] on a list of [str]: ascending for the order of [str].
    Python's sort is a stable merge sort; on strings the order is total and
    antisymmetric, so the result is the only ascending rearrangement of the
    input (see [sorted_unique]). *)
Definition sorted (items : list string) : list string :=
  merge_sort String.le items.

(** [not items] for a list: true exactly on the empty list. *)
Definition not_ {A} (items : list A) : bool :=
  match items with
  | [] => true
  | _ :: _ => false
  end.

(** ** pathlib *)

(** The three operations of [pathlib.Path] the script uses.  The concrete
    class depends on the platform ([PosixPath] or [WindowsPath]). *)
Class PathFlavour := {
  Path : Type;
  mkPath : string -> Path;            (* Path(s) *)
  truediv : Path -> string -> Path;   (* p / s *)
  fspath : Path -> string             (* str(p), also what os.listdir reads *)
}.

(** The POSIX flavour, after CPython's [pathlib] and [posixpath]. *)
Module PosixPath.

Definition sep : ascii := "/"%char.
Definition sep_str : string := String sep EmptyString.

(** [s.split('/')] *)
Fixpoint split (s : string) : list string :=
  match s with
  | EmptyString => [EmptyString]
  | String c s' =>
      if Ascii.eqb c sep then EmptyString :: split s'
      else match split s' with
           | [] => [String c EmptyString]
           | h :: t => String c h :: t
           end
  end.

(** [posixpath.join(a, *p)] *)
Definition join2 (path b : string) : string :=
  if startswith b sep_str then b
  else if String.eqb path EmptyString then b
  else if endswith path sep_str then path +:+ b
  else path +:+ sep_str +:+ b.

Definition join_all (a : string) (p : list string) : string :=
  foldl join2 a p.

(** [posixpath.splitroot(p)], without the drive, which is always empty:
    the root and the remainder. *)
Definition splitroot (p : string) : string * string :=
  match p with
  | String c1 r1 =>
      if Ascii.eqb c1 sep then
        match r1 with
        | String c2 r2 =>
            if Ascii.eqb c2 sep then
              match r2 with
              | String c3 _ =>
                  if Ascii.eqb c3 sep then (sep_str, r1)
                  else (sep_str +:+ sep_str, r2)
              | EmptyString => (sep_str +:+ sep_str, r2)
              end
            else (sep_str, r1)
        | EmptyString => (sep_str, r1)
        end
      else (EmptyString, p)
  | EmptyString => (EmptyString, p)
  end.

Definition keep_part (x : string) : bool :=
  negb (String.eqb x EmptyString) && negb (String.eqb x ".").

(** [PurePath._parse_path] *)
Definition parse_path (path : string) : string * list string :=
  if String.eqb path EmptyString then (EmptyString, [])
  else let '(root, rel) := splitroot path in
       (root, List.filter keep_part (split rel)).

(** A path object keeps the strings it was built from. *)
Definition t : Type := list string.

Definition raw_path (p : t) : string :=
  match p with
  | [] => EmptyString
  | a :: rest => join_all a rest
  end.

(** [PurePath.__str__] *)
Definition to_str (p : t) : string :=
  let '(root, tail) := parse_path (raw_path p) in
  let s := root +:+ join sep_str tail in
  if String.eqb s EmptyString then "." else s.

Definition flavour : PathFlavour :=
  {| Path := t;
     mkPath := fun s => [s];
     truediv := fun p s => p ++ [s];
     fspath := to_str |}.

End PosixPath.

(** ** The world and the monad of effects *)

(** What [os.listdir] can raise: the subclasses of [OSError] for a missing
    directory, a refused access and a path that is not a directory, any
    other [OSError] with its number, and [ValueError] for a path with a
    null character. *)
Inductive exn : Type :=
  | FileNotFoundError
  | PermissionError
  | NotADirectoryError
  | OSError (errno : nat)
  | ValueError.

(** What a run can see of its surroundings: the directory tree (the outcome
    of [os.listdir] per path string), the command line and the environment
    variables.  The tree does not change while the script runs: the script
    itself writes nothing into it. *)
Record World : Type := {
  dirs : string -> exn + list string;
  argv : list string;
  environ : list (string * string)
}.

(** The externally visible actions. [Write] stands for writing a file; no
    operation below emits it, as the script opens no file. *)
Inductive event : Type :=
  | Listdir (path : string)
  | Print (text : string)
  | Write (path text : string).

Definition IO (A : Type) : Type := World -> list event * (exn + A).

Definition run {A} (m : IO A) (w : World) : list event * (exn + A) := m w.

Global Instance IO_ret : MRet IO := fun A a _ => ([], inr a).

Global Instance IO_bind : MBind IO := fun A B f m w =>
  match m w with
  | (t1, inl e) => (t1, inl e)
  | (t1, inr a) =>
      match f a w with
      | (t2, r) => (t1 ++ t2, r)
      end
  end.

(** [print(text)]: writes the text and a line feed to standard output. *)
Definition print (text : string) : IO unit :=
  fun _ => ([Print text], inr tt).

(** [for x in items: body(x)] *)
Fixpoint for_each {A} (items : list A) (body : A -> IO unit) : IO unit :=
  match items with
  | [] => mret tt
  | x :: rest => _ ← body x; for_each rest body
  end.

(** The calls of [print] in a trace, and the text they leave on standard
    output. *)
Definition printed (tr : list event) : list string :=
  omap (fun e => match e with Print s => Some s | _ => None end) tr.

Definition stdout (tr : list event) : string :=
  foldr (fun s acc => s +:+ LF +:+ acc) EmptyString (printed tr).

Definition is_print (e : event) : bool :=
  match e with Print _ => true | _ => false end.

Definition is_listdir (e : event) : bool :=
  match e with Listdir _ => true | _ => false end.

Definition is_write (e : event) : bool :=
  match e with Write _ _ => true | _ => false end.

(** ** The script *)

(** [CREATURES]: folder name, then display name and enum name. *)
Definition CREATURES : list (string * (string * string)) :=
  [ ("guard_robot", ("Guard Robot", "GUARD_ROBOT"));
    ("fire_pyrope", ("Fire Pyrope", "FIRE_PYROPE"));
    ("illusionary_raccoon", ("Illusionary Raccoon", "ILLUSIONARY_RACCOON"));
    ("ore_muncher", ("Ore Muncher", "ORE_MUNCHER"));
    ("neon_bat", ("Neon Bat", "NEON_BAT"));
    ("toy_trojan", ("Toy Trojan", "TOY_TROJAN"));
    ("robo", ("Robo", "ROBO"));
    ("froscola", ("Froscola", "FROSCOLA"));
    ("grizzly", ("Grizzly", "GRIZZLY"));
    ("blazin_sparkinstone_bugs",
       ("Blazin' Sparkinstone Bugs", "BLAZIN_SPARKINSTONE_BUGS"));
    ("stoplight_ghost", ("Stoplight Ghost", "STOPLIGHT_GHOST"));
    ("haunted_river_rock", ("Haunted River Rock", "HAUNTED_RIVER_ROCK"));
    ("hedgehog", ("Hedgehog", "HEDGEHOG"));
    ("delinquent_chick", ("Delinquent Chick", "DELINQUENT_CHICK"));
    ("ooze_waste", ("Ooze Waste", "OOZE_WASTE"));
    ("krip", ("Krip", "KRIP"));
    ("grave_robber_hunting_dog",
       ("Grave Robber's Hunting Dog", "GRAVE_ROBBER_HUNTING_DOG")) ].

Section Script.

Context `{PathFlavour}.

Definition BASE_PATH : Path :=
  mkPath
    "C:/Users/purem/OneDrive/Documents/new-game-project/assets/sprites/creatures".

(** [os.listdir(p)]: the names in the directory, in no particular order,
    or the error the system reports. *)
Definition listdir (p : Path) : IO (list string) :=
  fun w => ([Listdir (fspath p)], dirs w (fspath p)).

Definition get_frames_from_folder (folder_path : Path)
  : IO (list string * list string) :=
  names ← listdir folder_path;
  let stand_frames := sorted (filter (fun f => startswith f "stand_") names) in
  names ← listdir folder_path;
  let move_frames := sorted (filter (fun f => startswith f "move_") names) in
  move_frames ←
    (if not_ move_frames then
       names ← listdir folder_path;
       mret (sorted (filter (fun f => startswith f "chase_") names))
     else mret move_frames);
  mret (stand_frames, move_frames).

(** One element of [frame_entries]: the body of the loops over the
    frames. *)
Definition frame_entry (folder_name frame : string) : string :=
  let frame_path :=
    "res://assets/sprites/creatures/" +:+ folder_name +:+ "/" +:+ frame in
  "{" +:+ LF +:+ DQ +:+ "duration" +:+ DQ +:+ ": 1.0," +:+ LF
    +:+ DQ +:+ "texture" +:+ DQ +:+ ": ExtResource(" +:+ DQ +:+ frame_path
    +:+ DQ +:+ ")" +:+ LF +:+ "}".

(** The value of [lines] when [create_sprite_frames] reaches its last
    statement. *)
Definition resource_lines (folder_name : string)
    (stand_frames move_frames : list string) : list string :=
  let lines :=
    [ "[gd_resource type=" +:+ DQ +:+ "SpriteFrames" +:+ DQ +:+ " format=3]";
      EmptyString;
      "[resource]";
      "animations = [{" ] in
  let animations : list string := [] in
  let idle_anim :=
    [ DQ +:+ "frames" +:+ DQ +:+ ": [";
      join ("," +:+ LF) (frame_entry folder_name <$> stand_frames);
      "],";
      DQ +:+ "loop" +:+ DQ +:+ ": true,";
      DQ +:+ "name" +:+ DQ +:+ ": &" +:+ DQ +:+ "idle" +:+ DQ +:+ ",";
      DQ +:+ "speed" +:+ DQ +:+ ": 8.0" ] in
  let move_anim :=
    [ DQ +:+ "frames" +:+ DQ +:+ ": [";
      join ("," +:+ LF) (frame_entry folder_name <$> move_frames);
      "],";
      DQ +:+ "loop" +:+ DQ +:+ ": true,";
      DQ +:+ "name" +:+ DQ +:+ ": &" +:+ DQ +:+ "walk" +:+ DQ +:+ ",";
      DQ +:+ "speed" +:+ DQ +:+ ": 8.0" ] in
  let animations_data := [ "{" +:+ LF +:+ join LF idle_anim +:+ LF +:+ "}" ] in
  let animations_data :=
    animations_data ++
    ((fun direction : string =>
        let walk_anim :=
          [ DQ +:+ "frames" +:+ DQ +:+ ": [";
            join ("," +:+ LF) (frame_entry folder_name <$> move_frames);
            "],";
            DQ +:+ "loop" +:+ DQ +:+ ": true,";
            DQ +:+ "name" +:+ DQ +:+ ": &" +:+ DQ +:+ direction +:+ DQ +:+ ",";
            DQ +:+ "speed" +:+ DQ +:+ ": 8.0" ] in
        "{" +:+ LF +:+ join LF walk_anim +:+ LF +:+ "}")
     <$> ["walk-down"; "walk-left"; "walk-right"; "walk-up"]) in
  lines ++ [ join ("," +:+ LF) animations_data; "}]" ].

(** The result is Python's [None] ([None] here) on both paths; [Some]
    would carry the text of a resource. *)
Definition create_sprite_frames (folder_name display_name enum_name : string)
  : IO (option string) :=
  let folder_path := truediv BASE_PATH folder_name in
  '(stand_frames, move_frames) ← get_frames_from_folder folder_path;
  if not_ stand_frames || not_ move_frames then
    _ ← print ("Warning: Missing frames for " +:+ folder_name);
    mret None
  else
    let lines := resource_lines folder_name stand_frames move_frames in
    mret None.

(** The statements at module level (the last five lines of the file). *)
Definition main : IO unit :=
  _ ← print
    "Due to Godot's resource format complexity, SpriteFrames should be created in Godot editor.";
  _ ← print
    "However, we can still proceed by updating the global_enums.gd with placeholders.";
  _ ← print (LF +:+ "Creatures to add:");
  for_each CREATURES (fun '(folder, (name, enum)) =>
    print ("  - " +:+ name +:+ " (" +:+ enum +:+ "): "
             +:+ fspath (truediv BASE_PATH folder))).

(** The text of the line printed for one entry of [CREATURES]. *)
Definition creature_line (entry : string * (string * string)) : string :=
  "  - " +:+ entry.2.1 +:+ " (" +:+ entry.2.2 +:+ "): "
    +:+ fspath (truediv BASE_PATH entry.1).

Definition notice_lines : list string :=
  [ "Due to Godot's resource format complexity, SpriteFrames should be created in Godot editor.";
    "However, we can still proceed by updating the global_enums.gd with placeholders.";
    LF +:+ "Creatures to add:" ].

End Script.

Global Instance event_eq_dec : EqDecision event.
Proof. solve_decision. Defined.

(** ** Specification vocabulary *)

(** [out] is exactly the names of [names] that start with [prefix], in
    ascending lexicographic order: it holds the same names the same number
    of times, and each element is below the next. *)
Definition sorted_selection (prefix : string) (names out : list string) : Prop :=
  out ≡ₚ filter (fun f => startswith f prefix) names ∧ Sorted String.le out.

(** What the specification says of the two lists of a folder: the stand
    frames are the [stand_] names; the move frames are the [move_] names,
    or the [chase_] names when there is no [move_] name. *)
Definition frames_of_listing (names stand move : list string) : Prop :=
  sorted_selection "stand_" names stand ∧
  (filter (fun f => startswith f "move_") names ≠ [] →
     sorted_selection "move_" names move) ∧
  (filter (fun f => startswith f "move_") names = [] →
     sorted_selection "chase_" names move).

(** A world for examples: every directory holds the same five files. *)
Definition five_files : list string :=
  ["stand_1.png"; "move_b.png"; "stand_0.png"; "chase_a.png"; "move_a.png"].

Definition world_of (listing : string -> exn + list string) : World :=
  {| dirs := listing; argv := []; environ := [] |}.

(** Every directory holds [five_files]; every directory is empty; no
    directory can be read. *)
Definition five_world : World := world_of (fun _ => inr five_files).
Definition empty_world : World := world_of (fun _ => inr []).
Definition locked_world : World := world_of (fun _ => inl PermissionError).

(** Every directory holds stand frames and nothing else. *)
Definition stand_only_world : World :=
  world_of (fun _ => inr ["stand_1.png"; "stand_0.png"]).

(** A name the script looks at: it carries one of the three prefixes. *)
Definition known_prefix (f : string) : bool :=
  startswith f "stand_" || startswith f "move_" || startswith f "chase_".

(** The test of [create_sprite_frames] for its warning, read on the names
    of the folder: no stand frame, or neither a move nor a chase frame. *)
Definition missing_frames (names : list string) : bool :=
  not_ (filter (fun f => startswith f "stand_") names)
  || (not_ (filter (fun f => startswith f "move_") names)
      && not_ (filter (fun f => startswith f "chase_") names)).

(** [c in s] for a character [c]. *)
Fixpoint contains (c : ascii) (s : string) : bool :=
  match s with
  | EmptyString => false
  | String c' s' => Ascii.eqb c c' || contains c s'
  end.

(** The same five files listed in another order, among files that carry
    none of the prefixes. *)
Definition shuffled_files : list string :=
  ["move_a.png"; "readme.txt"; "chase_a.png"; "stand_0.png"; "Stand_9.png";
   "move_b.png"; "stand_1.png"].

Definition shuffled_world : World := world_of (fun _ => inr shuffled_files).

(** ** Facts about [sorted] and prefixes *)

Lemma sorted_Sorted (l : list string) : Sorted String.le (sorted l).
Proof. apply (Sorted_merge_sort String.le). Qed.

Lemma sorted_Permutation (l : list string) : sorted l ≡ₚ l.
Proof. apply (merge_sort_Permutation String.le). Qed.

(** Whatever sorting algorithm the interpreter runs, an ascending
    rearrangement of [l] is [sorted l]. *)
Lemma sorted_unique (l out : list string) :
  out ≡ₚ l → Sorted String.le out → out = sorted l.
Proof.
  intros Hp Hs.
  apply (Sorted_unique String.le); auto using sorted_Sorted.
  by rewrite Hp, sorted_Permutation.
Qed.

Lemma not_sorted (l : list string) : not_ (sorted l) = not_ l.
Proof.
  pose proof (sorted_Permutation l) as Hp.
  destruct l as [|x l]; [done|].
  destruct (sorted (x :: l)); [|done].
  by apply Permutation_nil_cons in Hp.
Qed.

Lemma not_true_iff {A} (l : list A) : not_ l = true ↔ l = [].
Proof. by destruct l. Qed.

Lemma sorted_selection_sorted (prefix : string) (names : list string) :
  sorted_selection prefix names
    (sorted (filter (fun f => startswith f prefix) names)).
Proof. split; [apply sorted_Permutation | apply sorted_Sorted]. Qed.

Lemma sorted_selection_elem_of prefix names out f :
  sorted_selection prefix names out →
  f ∈ out ↔ f ∈ names ∧ startswith f prefix.
Proof.
  intros [Hp _]. rewrite Hp, list_elem_of_filter. tauto.
Qed.

(** The lines that [create_sprite_frames] builds before it drops them: the
    four header lines, the joined animations and the closing line. *)
Lemma resource_lines_length (folder_name : string) (stand move : list string) :
  length (resource_lines folder_name stand move) = 6.
Proof. reflexivity. Qed.

(** The three prefixes differ in their first letter, so a name carries at
    most one of them. *)
Lemma startswith_first (f prefix : string) (c : ascii) (rest : string) :
  prefix = String c rest → startswith f prefix →
  ∃ f', f = String c f'.
Proof.
  intros -> Hf. destruct f as [|c' f']; [done|].
  unfold startswith in Hf; simpl in Hf.
  destruct (ascii_dec c c') as [<-|]; [eauto|done].
Qed.

Lemma startswith_stand_not_move (f : string) :
  startswith f "stand_" → ¬ startswith f "move_".
Proof.
  intros [f1 ->]%(startswith_first _ _ _ _ eq_refl)
         [f2 [=]]%(startswith_first _ _ _ _ eq_refl).
Qed.

Lemma startswith_stand_not_chase (f : string) :
  startswith f "stand_" → ¬ startswith f "chase_".
Proof.
  intros [f1 ->]%(startswith_first _ _ _ _ eq_refl)
         [f2 [=]]%(startswith_first _ _ _ _ eq_refl).
Qed.

(** ** How the functions run *)

Section Runs.

Context `{PathFlavour}.

Lemma run_for_each_print {A} (g : A → string) (items : list A) (w : World) :
  run (for_each items (fun x => print (g x))) w
  = ((fun x => Print (g x)) <$> items, inr tt).
Proof.
  induction items as [|x items IH]; [done|].
  unfold run in *; simpl. unfold mbind, IO_bind. simpl.
  by rewrite IH.
Qed.

(** The listing fails: the first call of [os.listdir] raises and nothing
    else happens. *)
Lemma run_get_frames_error (w : World) (p : Path) (err : exn) :
  dirs w (fspath p) = inl err →
  run (get_frames_from_folder p) w = ([Listdir (fspath p)], inl err).
Proof.
  intros Hd.
  unfold run, get_frames_from_folder, mbind, IO_bind, listdir.
  by rewrite Hd.
Qed.

(** The listing succeeds: two calls of [os.listdir], and a third one for
    the fallback. *)
Lemma run_get_frames_ok (w : World) (p : Path) (names : list string) :
  dirs w (fspath p) = inr names →
  run (get_frames_from_folder p) w =
    (if not_ (filter (fun f => startswith f "move_") names)
     then [Listdir (fspath p); Listdir (fspath p); Listdir (fspath p)]
     else [Listdir (fspath p); Listdir (fspath p)],
     inr (sorted (filter (fun f => startswith f "stand_") names),
          if not_ (filter (fun f => startswith f "move_") names)
          then sorted (filter (fun f => startswith f "chase_") names)
          else sorted (filter (fun f => startswith f "move_") names))).
Proof.
  intros Hd.
  unfold run, get_frames_from_folder, mbind, IO_bind, listdir.
  rewrite Hd, not_sorted.
  destruct (not_ _) eqn:E; simpl; by rewrite ?Hd.
Qed.

(** Every call of [get_frames_from_folder] begins by listing the folder. *)
Lemma run_get_frames_first_event (w : World) (p : Path) :
  ∃ tr, (run (get_frames_from_folder p) w).1 = Listdir (fspath p) :: tr.
Proof.
  destruct (dirs w (fspath p)) as [err|names] eqn:Hd.
  - rewrite (run_get_frames_error _ _ _ Hd). eauto.
  - rewrite (run_get_frames_ok _ _ _ Hd). destruct (not_ _); eauto.
Qed.

Lemma run_create_error (w : World) (folder d e : string) (err : exn) :
  dirs w (fspath (truediv BASE_PATH folder)) = inl err →
  run (create_sprite_frames folder d e) w
  = ([Listdir (fspath (truediv BASE_PATH folder))], inl err).
Proof.
  intros Hd. unfold run, create_sprite_frames, mbind, IO_bind.
  pose proof (run_get_frames_error _ _ _ Hd) as Hr. unfold run in Hr.
  by rewrite Hr.
Qed.

(** A successful listing: the frames are computed, then either the
    warning is printed or the resource lines are built and dropped. *)
Lemma run_create_ok (w : World) (folder d e : string) (names : list string) :
  dirs w (fspath (truediv BASE_PATH folder)) = inr names →
  ∃ tr stand move,
    run (get_frames_from_folder (truediv BASE_PATH folder)) w
      = (tr, inr (stand, move)) ∧
    run (create_sprite_frames folder d e) w
      = (if not_ stand || not_ move
         then tr ++ [Print ("Warning: Missing frames for " +:+ folder)]
         else tr,
         inr None).
Proof.
  intros Hd. pose proof (run_get_frames_ok _ _ _ Hd) as Hr.
  eexists _, _, _. split; [exact Hr|].
  unfold run in *. unfold create_sprite_frames, mbind, IO_bind.
  rewrite Hr. simpl.
  destruct (not_ (sorted _) || not_ _); simpl; [done|].
  by rewrite app_nil_r.
Qed.

(** The pair [get_frames_from_folder] returns meets the specification's
    description of it. *)
Lemma run_get_frames_spec (w : World) (p : Path) (names : list string) :
  dirs w (fspath p) = inr names →
  ∃ tr stand move,
    run (get_frames_from_folder p) w
      = (Listdir (fspath p) :: tr, inr (stand, move)) ∧
    frames_of_listing names stand move.
Proof.
  intros Hd. rewrite (run_get_frames_ok _ _ _ Hd).
  destruct (not_ _) eqn:E.
  - apply not_true_iff in E.
    eexists _, _, _. split; [done|].
    split; [apply sorted_selection_sorted|].
    split; [done|]. intros _. apply sorted_selection_sorted.
  - eexists _, _, _. split; [done|].
    split; [apply sorted_selection_sorted|].
    split; [intros _; apply sorted_selection_sorted|].
    intros E'. by rewrite E' in E.
Qed.

(** The whole run of the module level statements, in any world. *)
Lemma run_main (w : World) :
  run main w
  = (Print <$> (notice_lines ++ (creature_line <$> CREATURES)), inr tt).
Proof.
  unfold run, main, mbind, IO_bind, print.
  pose proof (run_for_each_print creature_line CREATURES w) as Hr.
  unfold run in Hr.
  replace (for_each CREATURES _ w) with
    (for_each CREATURES (fun x => print (creature_line x)) w).
  by rewrite Hr.
Qed.

Lemma prints_printed (lines : list string) : printed (Print <$> lines) = lines.
Proof. induction lines; [done|]. unfold printed in *; simpl. by f_equal. Qed.

Lemma prints_no_listdir (lines : list string) (p : string) :
  Listdir p ∉ Print <$> lines.
Proof. by intros (s & ? & _)%list_elem_of_fmap. Qed.

Lemma prints_no_write (lines : list string) (p t : string) :
  Write p t ∉ Print <$> lines.
Proof. by intros (s & ? & _)%list_elem_of_fmap. Qed.

Lemma printed_app (tr1 tr2 : list event) :
  printed (tr1 ++ tr2) = printed tr1 ++ printed tr2.
Proof. apply omap_app. Qed.

(** [get_frames_from_folder] does nothing but list its folder. *)
Lemma run_get_frames_trace (w : World) (p : Path) :
  Forall (fun e => e = Listdir (fspath p)) (run (get_frames_from_folder p) w).1.
Proof.
  destruct (dirs w (fspath p)) as [err|names] eqn:Hd.
  - rewrite (run_get_frames_error _ _ _ Hd). by repeat constructor.
  - rewrite (run_get_frames_ok _ _ _ Hd).
    destruct (not_ _); by repeat constructor.
Qed.

Lemma printed_listdirs (tr : list event) (s : string) :
  Forall (fun e => e = Listdir s) tr → printed tr = [].
Proof. induction 1 as [|e tr -> _ IH]; [done|]. exact IH. Qed.

Lemma run_create_first_event (w : World) (folder d e : string) :
  ∃ tr, (run (create_sprite_frames folder d e) w).1
        = Listdir (fspath (truediv BASE_PATH folder)) :: tr.
Proof.
  destruct (dirs w (fspath (truediv BASE_PATH folder))) as [err|names] eqn:Hd.
  - rewrite (run_create_error _ _ _ _ _ Hd). eauto.
  - destruct (run_create_ok w folder d e names Hd)
      as (tr & stand & move & Hg & ->).
    destruct (run_get_frames_first_event w (truediv BASE_PATH folder))
      as [tr' Htr].
    rewrite Hg in Htr. simpl in Htr. subst tr.
    destruct (_ || _); simpl; eauto.
Qed.

(** The trace of [create_sprite_frames] holds listings and prints only. *)
Lemma run_create_no_write (w : World) (folder d e : string) (p t : string) :
  Write p t ∉ (run (create_sprite_frames folder d e) w).1.
Proof.
  destruct (dirs w (fspath (truediv BASE_PATH folder))) as [err|names] eqn:Hd.
  - rewrite (run_create_error _ _ _ _ _ Hd). simpl.
    by intros ?%list_elem_of_singleton.
  - destruct (run_create_ok w folder d e names Hd)
      as (tr & stand & move & Hg & ->).
    pose proof (run_get_frames_trace w (truediv BASE_PATH folder)) as Htr.
    rewrite Hg in Htr. simpl in Htr.
    assert (Write p t ∉ tr).
    { intros Hin. by rewrite Forall_forall in Htr; apply Htr in Hin. }
    destruct (_ || _); simpl; [|done].
    rewrite elem_of_app, list_elem_of_singleton. by intros [?|?].
Qed.

(** With missing frames the only thing printed is the warning. *)
Lemma run_create_missing (w : World) (folder d e : string)
    (tr : list event) (stand move : list string) :
  run (get_frames_from_folder (truediv BASE_PATH folder)) w
    = (tr, inr (stand, move)) →
  stand = [] ∨ move = [] →
  (run (create_sprite_frames folder d e) w).2 = inr None ∧
  printed (run (create_sprite_frames folder d e) w).1
    = ["Warning: Missing frames for " +:+ folder].
Proof.
  intros Hg Hmiss.
  destruct (dirs w (fspath (truediv BASE_PATH folder))) as [err|names] eqn:Hd.
  { by rewrite (run_get_frames_error _ _ _ Hd) in Hg. }
  destruct (run_create_ok w folder d e names Hd)
    as (tr' & stand' & move' & Hg' & ->).
  rewrite Hg in Hg'. injection Hg' as <- <- <-.
  pose proof (run_get_frames_trace w (truediv BASE_PATH folder)) as Htr.
  rewrite Hg in Htr. simpl in Htr.
  assert (not_ stand || not_ move = true) as ->.
  { destruct Hmiss as [-> | ->]; [done|]. by destruct stand. }
  simpl. split; [done|].
  by rewrite printed_app, (printed_listdirs _ _ Htr).
Qed.

End Runs.

Lemma filter_nil_iff_none (prefix : string) (names : list string) :
  filter (fun f => startswith f prefix) names = []
  ↔ ∀ f, f ∈ names → ¬ startswith f prefix.
Proof.
  split.
  - intros E f Hf Hp. by apply (filter_nil_not_elem_of _ _ f E Hp).
  - intros Hn. apply elem_of_nil_inv. intros f [Hp Hf]%list_elem_of_filter.
    by apply (Hn f).
Qed.

(** ** The properties of the specification *)

Section Claims.

Context `{PathFlavour}.

(** C1. For every directory listing, the stand list that
    [get_frames_from_folder] returns is exactly the names starting with
    [stand_] in ascending lexicographic order, and the move list is
    exactly the names starting with [move_] in that order; when there is
    no such name, the move list is exactly the names starting with
    [chase_], in that order. *)
Theorem get_frames_from_folder_sorted_partition
    (w : World) (p : Path) (names : list string) :
  dirs w (fspath p) = inr names →
  ∃ stand move,
    (run (get_frames_from_folder p) w).2 = inr (stand, move) ∧
    stand ≡ₚ filter (fun f => startswith f "stand_") names ∧
    Sorted String.le stand ∧
    Sorted String.le move ∧
    (filter (fun f => startswith f "move_") names ≠ [] →
       move ≡ₚ filter (fun f => startswith f "move_") names) ∧
    (filter (fun f => startswith f "move_") names = [] →
       move ≡ₚ filter (fun f => startswith f "chase_") names).
Proof.
  intros Hd.
  destruct (run_get_frames_spec w p names Hd)
    as (tr & stand & move & Hr & [Hp Hs] & Hmove & Hchase).
  exists stand, move. rewrite Hr. split; [done|]. split; [done|].
  split; [done|].
  destruct (decide (filter (fun f => startswith f "move_") names = []))
    as [E|E].
  - destruct (Hchase E) as [? ?]. by repeat split.
  - destruct (Hmove E) as [? ?]. by repeat split.
Qed.

(** C9. For every directory listing, the two lists returned by
    [get_frames_from_folder] are disjoint: every stand frame starts with
    [stand_]; every move frame starts with [move_] when some name of the
    listing does, and with [chase_] when none does; and no name is in both
    lists. *)
Theorem get_frames_from_folder_disjoint
    (w : World) (p : Path) (names : list string) :
  dirs w (fspath p) = inr names →
  ∃ stand move,
    (run (get_frames_from_folder p) w).2 = inr (stand, move) ∧
    Forall (fun f => startswith f "stand_") stand ∧
    ((∃ f, f ∈ names ∧ startswith f "move_") →
       Forall (fun f => startswith f "move_") move) ∧
    ((∀ f, f ∈ names → ¬ startswith f "move_") →
       Forall (fun f => startswith f "chase_") move) ∧
    (∀ f, f ∈ stand → f ∉ move).
Proof.
  intros Hd.
  destruct (run_get_frames_spec w p names Hd)
    as (tr & stand & move & Hr & Hstand & Hmove & Hchase).
  exists stand, move. rewrite Hr. split; [done|].
  assert (Hst : ∀ f, f ∈ stand → startswith f "stand_").
  { intros f Hf. by apply (sorted_selection_elem_of _ _ _ f Hstand) in Hf as [_ ?]. }
  assert (Hmv : ∀ f, f ∈ move → startswith f "move_" ∨ startswith f "chase_").
  { intros f Hf.
    destruct (decide (filter (fun f => startswith f "move_") names = []))
      as [E|E].
    - right. by apply (sorted_selection_elem_of _ _ _ f (Hchase E)) in Hf as [_ ?].
    - left. by apply (sorted_selection_elem_of _ _ _ f (Hmove E)) in Hf as [_ ?]. }
  split; [by apply Forall_forall|]. split; [|split].
  - intros (f & Hf & Hp). apply Forall_forall. intros g Hg.
    assert (E : filter (fun f => startswith f "move_") names ≠ []).
    { intros E. by apply (filter_nil_iff_none "move_" names) in Hf. }
    by apply (sorted_selection_elem_of _ _ _ g (Hmove E)) in Hg as [_ ?].
  - intros Hn%filter_nil_iff_none. apply Forall_forall. intros g Hg.
    by apply (sorted_selection_elem_of _ _ _ g (Hchase Hn)) in Hg as [_ ?].
  - intros f Hf%Hst Hg%Hmv. destruct Hg.
    + by apply (startswith_stand_not_move f).
    + by apply (startswith_stand_not_chase f).
Qed.

(** C6. A failure of the directory listing (a missing directory, a
    permission error, any other system error) is not handled: in
    [get_frames_from_folder] and in [create_sprite_frames] the exception
    that [os.listdir] raises leaves the function as it is, after a single
    attempt to list and with nothing printed. *)
Theorem listdir_failure_propagates
    (w : World) (p : Path) (folder_name display_name enum_name : string)
    (err : exn) :
  (dirs w (fspath p) = inl err →
     run (get_frames_from_folder p) w = ([Listdir (fspath p)], inl err)) ∧
  (dirs w (fspath (truediv BASE_PATH folder_name)) = inl err →
     run (create_sprite_frames folder_name display_name enum_name) w
     = ([Listdir (fspath (truediv BASE_PATH folder_name))], inl err)).
Proof.
  split; [apply run_get_frames_error | apply run_create_error].
Qed.

(** C7. For the listing [stand_1.png], [stand_0.png], [chase_a.png],
    [get_frames_from_folder] returns the stand frames [stand_0.png],
    [stand_1.png] and, through the fallback, the move frames
    [chase_a.png]; and for any listing without a name starting with
    [stand_], [create_sprite_frames] prints the warning and returns
    [None], whatever the other names are. *)
Theorem example_listing_and_skip_without_stand :
  (∀ (w : World) (p : Path),
     dirs w (fspath p) = inr ["stand_1.png"; "stand_0.png"; "chase_a.png"] →
     (run (get_frames_from_folder p) w).2
     = inr (["stand_0.png"; "stand_1.png"], ["chase_a.png"])) ∧
  (∀ (w : World) (folder_name display_name enum_name : string)
     (names : list string),
     dirs w (fspath (truediv BASE_PATH folder_name)) = inr names →
     (∀ f, f ∈ names → ¬ startswith f "stand_") →
     (run (create_sprite_frames folder_name display_name enum_name) w).2
       = inr None ∧
     printed (run (create_sprite_frames folder_name display_name enum_name) w).1
       = ["Warning: Missing frames for " +:+ folder_name]).
Proof.
  split.
  - intros w p Hd. by rewrite (run_get_frames_ok _ _ _ Hd).
  - intros w folder d e names Hd Hn.
    pose proof (run_get_frames_ok _ _ _ Hd) as Hg.
    apply filter_nil_iff_none in Hn. rewrite Hn in Hg.
    eapply run_create_missing; [exact Hg|]. by left.
Qed.

(** C2. When the folder of a creature yields an empty stand list or an
    empty move list (after the fallback to [chase_]),
    [create_sprite_frames] prints a warning that names the folder and
    returns [None] without raising.  Nothing consumes that result: a call
    of [create_sprite_frames] always lists a directory, and the run of
    the script lists none. *)
Theorem create_sprite_frames_skips_on_missing_frames
    (w : World) (folder_name display_name enum_name : string)
    (tr : list event) (stand move : list string) :
  run (get_frames_from_folder (truediv BASE_PATH folder_name)) w
    = (tr, inr (stand, move)) →
  stand = [] ∨ move = [] →
  (run (create_sprite_frames folder_name display_name enum_name) w).2
    = inr None ∧
  printed (run (create_sprite_frames folder_name display_name enum_name) w).1
    = ["Warning: Missing frames for " +:+ folder_name] ∧
  (∀ (w' : World) (f d e : string),
     Listdir (fspath (truediv BASE_PATH f))
       ∈ (run (create_sprite_frames f d e) w').1) ∧
  (∀ (w' : World) (p : string), Listdir p ∉ (run main w').1).
Proof.
  intros Hg Hmiss.
  destruct (run_create_missing w folder_name display_name enum_name
              tr stand move Hg Hmiss) as [Hres Hout].
  repeat split; [done|done| |].
  - intros w' f d e. destruct (run_create_first_event w' f d e) as [tr' ->].
    apply list_elem_of_here.
  - intros w' p. rewrite run_main. apply prints_no_listdir.
Qed.

(** C3. For every folder name, display name, enum name and every
    contents of the directory, also with stand and move frames present,
    [create_sprite_frames] returns [None]; no run of it returns a
    resource text, and no run of it writes a file. *)
Theorem create_sprite_frames_returns_None
    (w : World) (folder_name display_name enum_name : string) :
  (∀ names : list string,
     dirs w (fspath (truediv BASE_PATH folder_name)) = inr names →
     (run (create_sprite_frames folder_name display_name enum_name) w).2
     = inr None) ∧
  (∀ text : string,
     (run (create_sprite_frames folder_name display_name enum_name) w).2
     ≠ inr (Some text)) ∧
  (∀ p t : string,
     Write p t
       ∉ (run (create_sprite_frames folder_name display_name enum_name) w).1).
Proof.
  split; [|split].
  - intros names Hd.
    by destruct (run_create_ok w folder_name display_name enum_name names Hd)
      as (tr & stand & move & _ & ->).
  - intros text.
    destruct (dirs w (fspath (truediv BASE_PATH folder_name)))
      as [err|names] eqn:Hd.
    + by rewrite (run_create_error _ _ _ _ _ Hd).
    + by destruct (run_create_ok w folder_name display_name enum_name names Hd)
        as (tr & stand & move & _ & ->).
  - apply run_create_no_write.
Qed.

(** C5. Running the script writes no file: the run ends normally, every
    event of it is a [print], and the printed text lists each creature
    with its source path. *)
Theorem script_run_writes_nothing (w : World) :
  (run main w).2 = inr tt ∧
  (∀ e, e ∈ (run main w).1 → ∃ text, e = Print text) ∧
  (∀ p t : string, Write p t ∉ (run main w).1) ∧
  (∀ entry, entry ∈ CREATURES →
     creature_line entry ∈ printed (run main w).1).
Proof.
  rewrite run_main. cbn [fst snd]. split; [done|]. split; [|split].
  - intros e (text & -> & _)%list_elem_of_fmap. eauto.
  - intros p t. apply prints_no_write.
  - intros entry Hin. rewrite prints_printed, elem_of_app. right.
    apply list_elem_of_fmap. eauto.
Qed.

(** C8. What the script prints is fixed by its constants: two runs, in
    whatever worlds (directory trees, command lines, environments), have
    the same trace and leave the same text on standard output. *)
Theorem script_output_is_deterministic (w1 w2 : World) :
  run main w1 = run main w2 ∧
  stdout (run main w1).1 = stdout (run main w2).1.
Proof. by rewrite !run_main. Qed.

(** C10. The run of the script prints the two notices, then the header
    [Creatures to add:] (after an empty line), then one line for each of
    the 17 entries of [CREATURES] in the order of the table, each of the
    form [  - display_name (enum_name): BASE_PATH/folder]; neither
    [get_frames_from_folder] nor [create_sprite_frames] is called, as
    each call of them lists a directory and the run lists none. *)
Theorem script_prints_one_line_per_creature (w : World) :
  run main w
  = ((Print <$>
        [ "Due to Godot's resource format complexity, SpriteFrames should be created in Godot editor.";
          "However, we can still proceed by updating the global_enums.gd with placeholders.";
          LF +:+ "Creatures to add:" ])
       ++ ((fun '(folder, (name, enum)) =>
              Print ("  - " +:+ name +:+ " (" +:+ enum +:+ "): "
                       +:+ fspath (truediv BASE_PATH folder)))
           <$> CREATURES),
     inr tt) ∧
  length CREATURES = 17 ∧
  (∀ p : string, Listdir p ∉ (run main w).1) ∧
  (∀ (w' : World) (p : Path),
     Listdir (fspath p) ∈ (run (get_frames_from_folder p) w').1) ∧
  (∀ (w' : World) (f d e : string),
     Listdir (fspath (truediv BASE_PATH f))
       ∈ (run (create_sprite_frames f d e) w').1).
Proof.
  split; [by rewrite run_main|]. split; [done|]. split; [|split].
  - intros p. rewrite run_main. apply prints_no_listdir.
  - intros w' p. destruct (run_get_frames_first_event w' p) as [tr ->].
    apply list_elem_of_here.
  - intros w' f d e. destruct (run_create_first_event w' f d e) as [tr ->].
    apply list_elem_of_here.
Qed.

(** C4, amended. The run of the script enumerates [CREATURES] and prints
    one informational line per entry, and lists no directory.  Listing
    the directory of a creature, splitting its names by prefix, sorting
    each part and, when frames are missing, printing the warning and
    skipping the creature is what [create_sprite_frames] does when it is
    called for an entry. *)
Theorem script_enumerates_and_function_partitions (w : World) :
  (run main w).2 = inr tt ∧
  printed (run main w).1 = notice_lines ++ (creature_line <$> CREATURES) ∧
  (∀ p : string, Listdir p ∉ (run main w).1) ∧
  (∀ (folder name enum : string) (names : list string),
     (folder, (name, enum)) ∈ CREATURES →
     dirs w (fspath (truediv BASE_PATH folder)) = inr names →
     ∃ tr stand move,
       run (get_frames_from_folder (truediv BASE_PATH folder)) w
         = (Listdir (fspath (truediv BASE_PATH folder)) :: tr,
            inr (stand, move)) ∧
       frames_of_listing names stand move ∧
       (run (create_sprite_frames folder name enum) w).2 = inr None ∧
       (stand = [] ∨ move = [] →
          printed (run (create_sprite_frames folder name enum) w).1
          = ["Warning: Missing frames for " +:+ folder])).
Proof.
  rewrite run_main. cbn [fst snd]. split; [done|].
  split; [apply prints_printed|]. split; [intros p; apply prints_no_listdir|].
  intros folder name enum names _ Hd.
  destruct (run_get_frames_spec w _ names Hd)
    as (tr & stand & move & Hg & Hspec).
  exists tr, stand, move. split; [done|]. split; [done|]. split.
  - by destruct (run_create_ok w folder name enum names Hd)
      as (tr' & stand' & move' & _ & ->).
  - intros Hmiss. by eapply run_create_missing.
Qed.

End Claims.

(** ** Further properties of [get_frames_from_folder] *)

Lemma not_Permutation {A} (l1 l2 : list A) : l1 ≡ₚ l2 → not_ l1 = not_ l2.
Proof.
  intros Hp. destruct l1, l2; try done.
  - by apply Permutation_nil_cons in Hp.
  - symmetry in Hp. by apply Permutation_nil_cons in Hp.
Qed.

Lemma sorted_Permutation_eq (l1 l2 : list string) :
  l1 ≡ₚ l2 → sorted l1 = sorted l2.
Proof.
  intros Hp. apply sorted_unique; [|apply sorted_Sorted].
  by rewrite sorted_Permutation.
Qed.

(** A sorted list is left as it is. *)
Lemma sorted_of_Sorted (l : list string) : Sorted String.le l → sorted l = l.
Proof. intros Hs. symmetry. by apply sorted_unique. Qed.

Lemma startswith_known (prefix f : string) :
  prefix ∈ ["stand_"; "move_"; "chase_"] →
  startswith f prefix → known_prefix f.
Proof.
  unfold known_prefix. intros Hp Hf.
  repeat (apply elem_of_cons in Hp as [-> | Hp]);
    [| |  | by apply elem_of_nil in Hp];
    destruct (startswith f "stand_"), (startswith f "move_"),
      (startswith f "chase_"); done.
Qed.

Lemma filter_known_prefix (prefix : string) (names : list string) :
  prefix ∈ ["stand_"; "move_"; "chase_"] →
  filter (fun f => startswith f prefix) (filter (fun f => known_prefix f) names)
  = filter (fun f => startswith f prefix) names.
Proof.
  intros Hp. rewrite list_filter_filter. apply list_filter_iff.
  intros f. split; [tauto|]. intros Hf. split; [done|].
  by apply (startswith_known prefix).
Qed.

Lemma startswith_move_not_chase (f : string) :
  startswith f "move_" → ¬ startswith f "chase_".
Proof.
  intros [f1 ->]%(startswith_first _ _ _ _ eq_refl)
         [f2 [=]]%(startswith_first _ _ _ _ eq_refl).
Qed.

Lemma filter_all (P : string → Prop) `{!∀ x, Decision (P x)} (l : list string) :
  Forall P l → filter P l = l.
Proof.
  induction 1 as [|x l Hx _ IH]; [done|].
  by rewrite filter_cons, decide_True, IH.
Qed.

Lemma filter_none (P : string → Prop) `{!∀ x, Decision (P x)} (l : list string) :
  Forall (fun x => ¬ P x) l → filter P l = [].
Proof.
  induction 1 as [|x l Hx _ IH]; [done|].
  by rewrite filter_cons, decide_False, IH.
Qed.

(** Two selections with exclusive tests take each element of the list at
    most once between them. *)
Lemma filter_exclusive_submseteq (P Q : string → Prop)
    `{!∀ x, Decision (P x)} `{!∀ x, Decision (Q x)} (l : list string) :
  (∀ x, P x → ¬ Q x) → filter P l ++ filter Q l ⊆+ l.
Proof.
  intros Hex. induction l as [|x l IH]; [done|].
  rewrite !filter_cons.
  destruct (decide (P x)) as [HP|HP], (decide (Q x)) as [HQ|HQ].
  - by destruct (Hex x HP).
  - simpl. by constructor.
  - rewrite <-Permutation_middle. by constructor.
  - by constructor.
Qed.

Lemma startswith_chase_not_move (f : string) :
  startswith f "chase_" → ¬ startswith f "move_".
Proof. intros Hc Hm. by apply (startswith_move_not_chase f). Qed.

Lemma not_filter_false_iff (prefix : string) (names : list string) :
  not_ (filter (fun f => startswith f prefix) names) = false
  ↔ ∃ f, f ∈ names ∧ startswith f prefix.
Proof.
  split.
  - destruct (filter _ names) as [|x l] eqn:E; [done|]. intros _.
    assert (Hx : x ∈ filter (fun f => startswith f prefix) names).
    { rewrite E. apply list_elem_of_here. }
    apply list_elem_of_filter in Hx as [? ?]. eauto.
  - intros (f & Hf & Hp).
    destruct (not_ _) eqn:E; [|done]. apply not_true_iff in E.
    by destruct (proj1 (filter_nil_iff_none prefix names) E f Hf).
Qed.

Lemma missing_frames_false_iff (names : list string) :
  missing_frames names = false
  ↔ (∃ f, f ∈ names ∧ startswith f "stand_") ∧
    (∃ f, f ∈ names ∧ (startswith f "move_" ∨ startswith f "chase_")).
Proof.
  unfold missing_frames.
  rewrite orb_false_iff, andb_false_iff, !not_filter_false_iff.
  split.
  - intros [Hs [(f & ? & ?)|(f & ? & ?)]]; eauto 6.
  - intros [Hs (f & ? & [?|?])]; eauto 6.
Qed.

(** In a stand list and a move list of one folder the tests of the other
    list fail. *)
Lemma frames_of_listing_prefixes (names stand move : list string) :
  frames_of_listing names stand move →
  Forall (fun f => startswith f "stand_") stand ∧
  Forall (fun f => ¬ startswith f "stand_") move ∧
  ∃ prefix, (prefix = "move_" ∨ prefix = "chase_") ∧
            sorted_selection prefix names move.
Proof.
  intros (Hstand & Hmove & Hchase).
  assert (Hsel : ∃ prefix, (prefix = "move_" ∨ prefix = "chase_") ∧
                   sorted_selection prefix names move).
  { destruct (decide (filter (fun f => startswith f "move_") names = []));
      eauto. }
  split; [|split; [|done]].
  - apply Forall_forall. intros f Hf.
    by apply (sorted_selection_elem_of _ _ _ f Hstand) in Hf as [_ ?].
  - destruct Hsel as (prefix & Hp & Hsel). apply Forall_forall.
    intros f Hf Hs.
    apply (sorted_selection_elem_of _ _ _ f Hsel) in Hf as [_ Hf].
    destruct Hp as [-> | ->].
    + by apply (startswith_stand_not_move f).
    + by apply (startswith_stand_not_chase f).
Qed.

Lemma string_length_app (s1 s2 : string) :
  String.length (s1 +:+ s2) = String.length s1 + String.length s2.
Proof.
  induction s1 as [|a s1 IH]; [done|].
  change (S (String.length (s1 +:+ s2)) = S (String.length s1 + String.length s2)).
  by rewrite IH.
Qed.

(** Appending the same text on the right keeps different strings
    different. *)
Lemma string_app_inj_r (t s1 s2 : string) : s1 +:+ t = s2 +:+ t → s1 = s2.
Proof.
  revert s2. induction s1 as [|a s1 IH]; intros [|b s2] Heq; [done| | |].
  - apply (f_equal String.length) in Heq.
    rewrite !string_length_app in Heq. simpl in Heq. lia.
  - apply (f_equal String.length) in Heq.
    rewrite !string_length_app in Heq. simpl in Heq. lia.
  - change (String a (s1 +:+ t) = String b (s2 +:+ t)) in Heq.
    injection Heq as -> Heq. f_equal. by apply IH.
Qed.

Section More.

Context `{PathFlavour}.

(** X1. The result of [get_frames_from_folder] depends only on the names
    that carry one of the three prefixes, not on the order in which the
    system lists them nor on the other files of the folder: two listings
    with the same prefixed names, up to order, give the same run. *)
Theorem get_frames_from_folder_same_prefixed_names
    (w1 w2 : World) (p : Path) (names1 names2 : list string) :
  dirs w1 (fspath p) = inr names1 →
  dirs w2 (fspath p) = inr names2 →
  filter (fun f => known_prefix f) names1
    ≡ₚ filter (fun f => known_prefix f) names2 →
  run (get_frames_from_folder p) w1 = run (get_frames_from_folder p) w2.
Proof.
  intros Hd1 Hd2 Hk.
  assert (Hsel : ∀ prefix, prefix ∈ ["stand_"; "move_"; "chase_"] →
            filter (fun f => startswith f prefix) names1
            ≡ₚ filter (fun f => startswith f prefix) names2).
  { intros prefix Hp.
    rewrite <-(filter_known_prefix prefix names1 Hp),
            <-(filter_known_prefix prefix names2 Hp).
    by rewrite Hk. }
  rewrite (run_get_frames_ok _ _ _ Hd1), (run_get_frames_ok _ _ _ Hd2).
  rewrite (sorted_Permutation_eq _ _ (Hsel "stand_" ltac:(repeat constructor))).
  rewrite (sorted_Permutation_eq _ _ (Hsel "move_" ltac:(repeat constructor))).
  rewrite (sorted_Permutation_eq _ _ (Hsel "chase_" ltac:(repeat constructor))).
  by rewrite (not_Permutation _ _ (Hsel "move_" ltac:(repeat constructor))).
Qed.

(** X2. When the folder has a name starting with [move_], the names
    starting with [chase_] play no part: the returned pair is the one of
    the folder without them. *)
Theorem get_frames_from_folder_chase_unused
    (w1 w2 : World) (p : Path) (names : list string) :
  dirs w1 (fspath p) = inr names →
  dirs w2 (fspath p)
    = inr (filter (fun f => ¬ startswith f "chase_") names) →
  (∃ f, f ∈ names ∧ startswith f "move_") →
  (run (get_frames_from_folder p) w1).2 = (run (get_frames_from_folder p) w2).2.
Proof.
  intros Hd1 Hd2 (m & Hm & Hmove).
  rewrite (run_get_frames_ok _ _ _ Hd1), (run_get_frames_ok _ _ _ Hd2).
  cbn [snd].
  assert (Hs : filter (fun f => startswith f "stand_")
                 (filter (fun f => ¬ startswith f "chase_") names)
               = filter (fun f => startswith f "stand_") names).
  { rewrite list_filter_filter. apply list_filter_iff. intros f.
    split; [tauto|]. intros Hf. split; [done|].
    by apply startswith_stand_not_chase. }
  assert (Hmv : filter (fun f => startswith f "move_")
                  (filter (fun f => ¬ startswith f "chase_") names)
                = filter (fun f => startswith f "move_") names).
  { rewrite list_filter_filter. apply list_filter_iff. intros f.
    split; [tauto|]. intros Hf. split; [done|].
    by apply startswith_move_not_chase. }
  rewrite Hs, Hmv.
  destruct (not_ _) eqn:E; [|done].
  apply not_true_iff in E.
  by destruct (proj1 (filter_nil_iff_none "move_" names) E m Hm).
Qed.

(** X3. A successful call lists the folder twice, and a third time exactly
    when no name starts with [move_]; it does nothing else. *)
Theorem get_frames_from_folder_listings
    (w : World) (p : Path) (names : list string) :
  dirs w (fspath p) = inr names →
  ((∃ f, f ∈ names ∧ startswith f "move_") →
     (run (get_frames_from_folder p) w).1 = replicate 2 (Listdir (fspath p))) ∧
  ((∀ f, f ∈ names → ¬ startswith f "move_") →
     (run (get_frames_from_folder p) w).1 = replicate 3 (Listdir (fspath p))).
Proof.
  intros Hd. rewrite (run_get_frames_ok _ _ _ Hd). cbn [fst]. split.
  - intros (m & Hm & Hmove). destruct (not_ _) eqn:E; [|done].
    apply not_true_iff in E.
  by destruct (proj1 (filter_nil_iff_none "move_" names) E m Hm).
  - intros Hn%filter_nil_iff_none. by rewrite Hn.
Qed.

(** X4. A folder lists each name once; then no frame occurs twice, neither
    inside one of the two lists nor across them. *)
Theorem get_frames_from_folder_no_duplicates
    (w : World) (p : Path) (names : list string) :
  dirs w (fspath p) = inr names →
  NoDup names →
  ∃ stand move,
    (run (get_frames_from_folder p) w).2 = inr (stand, move) ∧
    NoDup (stand ++ move).
Proof.
  intros Hd Hnd.
  destruct (run_get_frames_spec w p names Hd)
    as (tr & stand & move & Hr & Hspec).
  exists stand, move. rewrite Hr. split; [done|].
  destruct (frames_of_listing_prefixes _ _ _ Hspec)
    as (Hs & Hm & prefix & _ & [Hperm _]).
  destruct Hspec as ([Hstand _] & _).
  apply NoDup_app. split; [|split].
  - rewrite Hstand. by apply NoDup_filter.
  - intros f Hf Hf'. rewrite Forall_forall in Hs, Hm.
    by apply (Hm f Hf'), Hs.
  - rewrite Hperm. by apply NoDup_filter.
Qed.

(** X5. The two lists together take each name of the folder at most as
    often as the folder lists it; in particular they hold no more names
    than the folder. *)
Theorem get_frames_from_folder_within_listing
    (w : World) (p : Path) (names : list string) :
  dirs w (fspath p) = inr names →
  ∃ stand move,
    (run (get_frames_from_folder p) w).2 = inr (stand, move) ∧
    stand ++ move ⊆+ names ∧
    length stand + length move ≤ length names.
Proof.
  intros Hd.
  destruct (run_get_frames_spec w p names Hd)
    as (tr & stand & move & Hr & Hspec).
  exists stand, move. rewrite Hr. split; [done|].
  assert (Hsub : stand ++ move ⊆+ names).
  { destruct (frames_of_listing_prefixes _ _ _ Hspec)
      as (_ & _ & prefix & Hp & [Hperm _]).
    destruct Hspec as ([Hstand _] & _).
    rewrite Hstand, Hperm. apply filter_exclusive_submseteq.
    intros f Hs. destruct Hp as [-> | ->].
    - by apply startswith_stand_not_move.
    - by apply startswith_stand_not_chase. }
  split; [done|]. rewrite <-length_app. by apply submseteq_length.
Qed.

(** X6. Listing the pair that [get_frames_from_folder] returned gives the
    same pair again: a folder that holds exactly the returned frames has
    them as its stand and move frames. *)
Theorem get_frames_from_folder_fixed_point
    (w w' : World) (p p' : Path) (stand move : list string) :
  (run (get_frames_from_folder p) w).2 = inr (stand, move) →
  dirs w' (fspath p') = inr (stand ++ move) →
  (run (get_frames_from_folder p') w').2 = inr (stand, move).
Proof.
  intros Hres Hd'.
  destruct (dirs w (fspath p)) as [err|names] eqn:Hd.
  { by rewrite (run_get_frames_error _ _ _ Hd) in Hres. }
  destruct (run_get_frames_spec w p names Hd)
    as (tr & stand0 & move0 & Hr & Hspec).
  rewrite Hr in Hres. injection Hres as -> ->.
  destruct (frames_of_listing_prefixes _ _ _ Hspec) as (Hs & Hm & _).
  destruct Hspec as ([_ Hsorted] & Hmove & Hchase).
  rewrite (run_get_frames_ok _ _ _ Hd'). cbn [snd].
  rewrite !filter_app.
  rewrite (filter_all _ stand Hs), (filter_none _ move Hm), app_nil_r.
  rewrite (sorted_of_Sorted stand Hsorted).
  assert (Hsm : filter (fun f => startswith f "move_") stand = []).
  { apply filter_none. eapply Forall_impl; [exact Hs|].
    intros f. apply startswith_stand_not_move. }
  assert (Hsc : filter (fun f => startswith f "chase_") stand = []).
  { apply filter_none. eapply Forall_impl; [exact Hs|].
    intros f. apply startswith_stand_not_chase. }
  rewrite Hsm, Hsc. simpl.
  destruct (decide (filter (fun f => startswith f "move_") names = []))
    as [E|E].
  - destruct (Hchase E) as [Hperm Hsrt].
    assert (Hc : Forall (fun f => startswith f "chase_") move).
    { apply Forall_forall. intros f Hf. rewrite Hperm in Hf.
      by apply list_elem_of_filter in Hf as [? _]. }
    rewrite (filter_none (fun f => startswith f "move_") move).
    + simpl. by rewrite (filter_all _ move Hc), (sorted_of_Sorted move Hsrt).
    + eapply Forall_impl; [exact Hc|]. intros f.
      apply startswith_chase_not_move.
  - destruct (Hmove E) as [Hperm Hsrt].
    assert (Hmv : Forall (fun f => startswith f "move_") move).
    { apply Forall_forall. intros f Hf. rewrite Hperm in Hf.
      by apply list_elem_of_filter in Hf as [? _]. }
    rewrite (filter_all _ move Hmv).
    assert (not_ move = false) as ->.
    { rewrite (not_Permutation _ _ Hperm). by destruct (filter _ names). }
    by rewrite (sorted_of_Sorted move Hsrt).
Qed.

(** The run of [create_sprite_frames] on a folder that can be listed: the
    listings of [get_frames_from_folder], then the warning if frames are
    missing. *)
Lemma run_create_names (w : World) (folder d e : string) (names : list string) :
  dirs w (fspath (truediv BASE_PATH folder)) = inr names →
  run (create_sprite_frames folder d e) w
  = ((run (get_frames_from_folder (truediv BASE_PATH folder)) w).1
       ++ (if missing_frames names
           then [Print ("Warning: Missing frames for " +:+ folder)]
           else []),
     inr None).
Proof.
  intros Hd.
  destruct (run_create_ok w folder d e names Hd)
    as (tr & stand & move & Hg & ->).
  rewrite Hg. cbn [fst].
  rewrite (run_get_frames_ok _ _ _ Hd) in Hg.
  injection Hg as _ <- <-.
  assert (not_ (sorted (filter (fun f => startswith f "stand_") names))
          || not_ (if not_ (filter (fun f => startswith f "move_") names)
                   then sorted (filter (fun f => startswith f "chase_") names)
                   else sorted (filter (fun f => startswith f "move_") names))
          = missing_frames names) as ->.
  { unfold missing_frames. rewrite not_sorted.
    destruct (not_ (filter (fun f => startswith f "move_") names)) eqn:E;
      rewrite not_sorted; [done|]. by rewrite E. }
  destruct (missing_frames names); [done|]. by rewrite app_nil_r.
Qed.

(** X7. On a folder that can be listed, [create_sprite_frames] prints at
    most the warning, after the listings; it prints nothing exactly when
    the folder has a name starting with [stand_] and a name starting with
    [move_] or [chase_]. *)
Theorem create_sprite_frames_warns_iff
    (w : World) (folder_name display_name enum_name : string)
    (names : list string) :
  dirs w (fspath (truediv BASE_PATH folder_name)) = inr names →
  (run (create_sprite_frames folder_name display_name enum_name) w).1
    = (run (get_frames_from_folder (truediv BASE_PATH folder_name)) w).1
      ++ (Print <$>
            printed (run (create_sprite_frames folder_name display_name
                            enum_name) w).1) ∧
  (printed (run (create_sprite_frames folder_name display_name enum_name) w).1
     = [] ∨
   printed (run (create_sprite_frames folder_name display_name enum_name) w).1
     = ["Warning: Missing frames for " +:+ folder_name]) ∧
  (printed (run (create_sprite_frames folder_name display_name enum_name) w).1
     = []
   ↔ (∃ f, f ∈ names ∧ startswith f "stand_") ∧
     (∃ f, f ∈ names ∧ (startswith f "move_" ∨ startswith f "chase_"))).
Proof.
  intros Hd. rewrite (run_create_names _ _ _ _ _ Hd). cbn [fst].
  rewrite printed_app.
  rewrite (printed_listdirs _ _
             (run_get_frames_trace w (truediv BASE_PATH folder_name))).
  rewrite <-missing_frames_false_iff.
  destruct (missing_frames names); simpl.
  - split; [done|]. split; [by right|]. by split.
  - split; [done|]. split; [by left|]. by split.
Qed.

(** X8. Files added to a folder never bring the warning: if
    [create_sprite_frames] prints nothing for a folder, it prints nothing
    for a folder that has these names and more. *)
Theorem create_sprite_frames_more_files_no_warning
    (w w' : World) (folder_name display_name enum_name : string)
    (names names' : list string) :
  dirs w (fspath (truediv BASE_PATH folder_name)) = inr names →
  dirs w' (fspath (truediv BASE_PATH folder_name)) = inr names' →
  names ⊆ names' →
  printed (run (create_sprite_frames folder_name display_name enum_name) w).1
    = [] →
  printed (run (create_sprite_frames folder_name display_name enum_name) w').1
    = [].
Proof.
  intros Hd Hd' Hsub.
  rewrite (run_create_names _ _ _ _ _ Hd), (run_create_names _ _ _ _ _ Hd').
  cbn [fst]. rewrite !printed_app.
  rewrite !(printed_listdirs _ _
              (run_get_frames_trace _ (truediv BASE_PATH folder_name))).
  assert (Hmono : missing_frames names = false → missing_frames names' = false).
  { rewrite !missing_frames_false_iff.
    intros [(f & Hf & ?) (g & Hg & ?)]. split; eauto. }
  destruct (missing_frames names); [done|]. by rewrite Hmono.
Qed.

Lemma frame_entry_inj (folder_name frame1 frame2 : string) :
  frame_entry folder_name frame1 = frame_entry folder_name frame2 →
  frame1 = frame2.
Proof.
  unfold frame_entry. intros Heq.
  repeat (apply (inj (String.app _)) in Heq).
  apply string_app_inj_r in Heq.
  by repeat (apply (inj (String.app _)) in Heq).
Qed.

(** X9. In one folder, different frames get different entries of the
    resource text: frames without a repetition give entries without a
    repetition. *)
Theorem frame_entries_distinct (folder_name : string) (frames : list string) :
  NoDup frames → NoDup (frame_entry folder_name <$> frames).
Proof.
  apply NoDup_fmap_2. intros f1 f2. apply frame_entry_inj.
Qed.

End More.

(** ** The table *)

(** The keys of the [dict] literal are pairwise distinct, so no entry
    replaces an earlier one and the table has its 17 entries. *)
Lemma CREATURES_keys_NoDup : NoDup (CREATURES.*1).
Proof. apply (bool_decide_unpack _). by vm_compute. Qed.

(** ** The POSIX flavour at work *)

#[local] Existing Instance PosixPath.flavour.

Lemma posix_guard_robot_path :
  fspath (truediv BASE_PATH "guard_robot")
  = "C:/Users/purem/OneDrive/Documents/new-game-project/assets/sprites/creatures/guard_robot".
Proof. reflexivity. Qed.

Lemma posix_to_str_examples :
  PosixPath.to_str ["//a/./b//c/"; "d"; EmptyString] = "//a/b/c/d" ∧
  PosixPath.to_str ["a"; "/b"] = "/b" ∧
  PosixPath.to_str [EmptyString] = "." ∧
  PosixPath.to_str ["///a"] = "/a" ∧
  PosixPath.to_str ["a/"; "b"] = "a/b".
Proof. by vm_compute. Qed.

(** ** The claims at concrete inputs *)

(** C4 as it is written fails.  In a world where the folder of every
    creature is empty (so that every creature lacks its frames), the run of
    the script neither lists the folder of [guard_robot], the first entry
    of [CREATURES], nor prints a warning for it. *)
Lemma script_run_lists_no_creature_folder :
  ("guard_robot", ("Guard Robot", "GUARD_ROBOT")) ∈ CREATURES ∧
  dirs empty_world (fspath (truediv BASE_PATH "guard_robot")) = inr [] ∧
  (Listdir (fspath (truediv BASE_PATH "guard_robot"))
     ∉ (run main empty_world).1) ∧
  (Print "Warning: Missing frames for guard_robot"
     ∉ (run main empty_world).1).
Proof.
  split; [apply list_elem_of_here|]. split; [done|].
  split; apply (bool_decide_unpack _); by vm_compute.
Qed.

(** C1 at [five_files]. *)
Lemma get_frames_from_folder_sorted_partition_five :
  ∃ stand move,
    (run (get_frames_from_folder BASE_PATH) five_world).2 = inr (stand, move) ∧
    stand ≡ₚ filter (fun f => startswith f "stand_") five_files ∧
    Sorted String.le stand ∧
    Sorted String.le move ∧
    (filter (fun f => startswith f "move_") five_files ≠ [] →
       move ≡ₚ filter (fun f => startswith f "move_") five_files) ∧
    (filter (fun f => startswith f "move_") five_files = [] →
       move ≡ₚ filter (fun f => startswith f "chase_") five_files).
Proof.
  apply (get_frames_from_folder_sorted_partition five_world BASE_PATH five_files).
  reflexivity.
Defined.

(** C9 at [five_files]. *)
Lemma get_frames_from_folder_disjoint_five :
  ∃ stand move,
    (run (get_frames_from_folder BASE_PATH) five_world).2 = inr (stand, move) ∧
    Forall (fun f => startswith f "stand_") stand ∧
    ((∃ f, f ∈ five_files ∧ startswith f "move_") →
       Forall (fun f => startswith f "move_") move) ∧
    ((∀ f, f ∈ five_files → ¬ startswith f "move_") →
       Forall (fun f => startswith f "chase_") move) ∧
    (∀ f, f ∈ stand → f ∉ move).
Proof.
  apply (get_frames_from_folder_disjoint five_world BASE_PATH five_files).
  reflexivity.
Defined.

(** C6 where no directory can be read. *)
Lemma listdir_failure_propagates_locked :
  run (get_frames_from_folder BASE_PATH) locked_world
    = ([Listdir (fspath BASE_PATH)], inl PermissionError) ∧
  run (create_sprite_frames "grizzly" "Grizzly" "GRIZZLY") locked_world
    = ([Listdir (fspath (truediv BASE_PATH "grizzly"))], inl PermissionError).
Proof.
  split.
  - apply (proj1 (listdir_failure_propagates locked_world BASE_PATH
                    "grizzly" "Grizzly" "GRIZZLY" PermissionError)).
    reflexivity.
  - apply (proj2 (listdir_failure_propagates locked_world BASE_PATH
                    "grizzly" "Grizzly" "GRIZZLY" PermissionError)).
    reflexivity.
Defined.

(** C7 at the listing of the example and at a folder with move frames
    only. *)
Lemma example_listing_and_skip_without_stand_run :
  (run (get_frames_from_folder BASE_PATH)
     (world_of (fun _ => inr ["stand_1.png"; "stand_0.png"; "chase_a.png"]))).2
    = inr (["stand_0.png"; "stand_1.png"], ["chase_a.png"]) ∧
  (run (create_sprite_frames "krip" "Krip" "KRIP")
     (world_of (fun _ => inr ["move_0.png"; "move_1.png"]))).2 = inr None ∧
  printed (run (create_sprite_frames "krip" "Krip" "KRIP")
     (world_of (fun _ => inr ["move_0.png"; "move_1.png"]))).1
    = ["Warning: Missing frames for " +:+ "krip"].
Proof.
  split.
  - apply (proj1 example_listing_and_skip_without_stand). reflexivity.
  - apply (proj2 example_listing_and_skip_without_stand
             (world_of (fun _ => inr ["move_0.png"; "move_1.png"]))
             "krip" "Krip" "KRIP" ["move_0.png"; "move_1.png"]).
    + reflexivity.
    + intros f Hf. apply (bool_decide_unpack _).
      revert f Hf. apply Forall_forall. by repeat constructor.
Defined.

(** C2 at a folder with stand frames only: three listings (the third one
    for the fallback), then the warning. *)
Lemma create_sprite_frames_skips_on_missing_frames_robo :
  (run (create_sprite_frames "robo" "Robo" "ROBO") stand_only_world).2
    = inr None ∧
  printed (run (create_sprite_frames "robo" "Robo" "ROBO") stand_only_world).1
    = ["Warning: Missing frames for " +:+ "robo"] ∧
  (∀ (w' : World) (f d e : string),
     Listdir (fspath (truediv BASE_PATH f))
       ∈ (run (create_sprite_frames f d e) w').1) ∧
  (∀ (w' : World) (p : string), Listdir p ∉ (run main w').1).
Proof.
  apply (create_sprite_frames_skips_on_missing_frames
           stand_only_world "robo" "Robo" "ROBO"
           [ Listdir (fspath (truediv BASE_PATH "robo"));
             Listdir (fspath (truediv BASE_PATH "robo"));
             Listdir (fspath (truediv BASE_PATH "robo")) ]
           ["stand_0.png"; "stand_1.png"] []).
  - reflexivity.
  - right. reflexivity.
Defined.

(** C3 at a folder that has stand and move frames. *)
Lemma create_sprite_frames_returns_None_five :
  (run (create_sprite_frames "neon_bat" "Neon Bat" "NEON_BAT") five_world).2
  = inr None.
Proof.
  apply (proj1 (create_sprite_frames_returns_None
                  five_world "neon_bat" "Neon Bat" "NEON_BAT") five_files).
  reflexivity.
Defined.

(** C4, amended, at the first entry of the table. *)
Lemma script_enumerates_and_function_partitions_guard_robot :
  ∃ tr stand move,
    run (get_frames_from_folder (truediv BASE_PATH "guard_robot")) stand_only_world
      = (Listdir (fspath (truediv BASE_PATH "guard_robot")) :: tr,
         inr (stand, move)) ∧
    frames_of_listing ["stand_1.png"; "stand_0.png"] stand move ∧
    (run (create_sprite_frames "guard_robot" "Guard Robot" "GUARD_ROBOT")
       stand_only_world).2 = inr None ∧
    (stand = [] ∨ move = [] →
       printed (run (create_sprite_frames "guard_robot" "Guard Robot" "GUARD_ROBOT")
                  stand_only_world).1
       = ["Warning: Missing frames for " +:+ "guard_robot"]).
Proof.
  apply (proj2 (proj2 (proj2
           (script_enumerates_and_function_partitions stand_only_world)))
           "guard_robot" "Guard Robot" "GUARD_ROBOT"
           ["stand_1.png"; "stand_0.png"]).
  - apply list_elem_of_here.
  - reflexivity.
Defined.

(** C5 at the entry of the grizzly: its line is among the printed ones. *)
Lemma script_run_writes_nothing_grizzly :
  creature_line ("grizzly", ("Grizzly", "GRIZZLY"))
    ∈ printed (run main empty_world).1.
Proof.
  apply (proj2 (proj2 (proj2 (script_run_writes_nothing empty_world)))).
  apply (bool_decide_unpack _). by vm_compute.
Defined.

(** ** Folder names and the POSIX flavour *)

Lemma string_app_assoc (s1 s2 s3 : string) :
  (s1 +:+ s2) +:+ s3 = s1 +:+ s2 +:+ s3.
Proof.
  induction s1 as [|a s1 IH]; [done|].
  change (String a ((s1 +:+ s2) +:+ s3) = String a (s1 +:+ s2 +:+ s3)).
  by rewrite IH.
Qed.

Lemma posix_split_cons (s : string) : ∃ h t, PosixPath.split s = h :: t.
Proof.
  induction s as [|c s (h & t & IH)]; simpl; [eauto|].
  rewrite IH. destruct (Ascii.eqb c PosixPath.sep); eauto.
Qed.

Lemma posix_split_sep (s f : string) :
  PosixPath.split (s +:+ PosixPath.sep_str +:+ f)
  = PosixPath.split s ++ PosixPath.split f.
Proof.
  induction s as [|c s IH]; [done|].
  change (String c s +:+ PosixPath.sep_str +:+ f)
    with (String c (s +:+ PosixPath.sep_str +:+ f)).
  simpl. rewrite IH. destruct (Ascii.eqb c PosixPath.sep); [done|].
  by destruct (posix_split_cons s) as (h & t & ->).
Qed.

Lemma posix_split_simple (f : string) :
  contains PosixPath.sep f = false → PosixPath.split f = [f].
Proof.
  induction f as [|c f IH]; [done|]. cbn [PosixPath.split contains].
  rewrite Ascii.eqb_sym. intros [-> Hf]%orb_false_iff.
  by rewrite (IH Hf).
Qed.

Lemma posix_simple_not_absolute (f : string) :
  contains PosixPath.sep f = false → startswith f PosixPath.sep_str = false.
Proof.
  destruct f as [|c f]; [done|]. cbn [contains].
  intros [Hc _]%orb_false_iff.
  unfold startswith, PosixPath.sep_str. cbn [String.prefix].
  destruct (ascii_dec PosixPath.sep c) as [<-|]; [|done].
  by rewrite Ascii.eqb_refl in Hc.
Qed.

Lemma posix_join_snoc (parts : list string) (f : string) :
  parts ≠ [] →
  join PosixPath.sep_str (parts ++ [f])
  = join PosixPath.sep_str parts +:+ PosixPath.sep_str +:+ f.
Proof.
  induction parts as [|x [|y parts] IH]; [done|done|]. intros _.
  change (x +:+ PosixPath.sep_str +:+ join PosixPath.sep_str ((y :: parts) ++ [f])
          = (x +:+ PosixPath.sep_str +:+ join PosixPath.sep_str (y :: parts))
            +:+ PosixPath.sep_str +:+ f).
  rewrite IH by done. by rewrite !string_app_assoc.
Qed.

(** X10. On POSIX, a folder name that starts with a slash is not looked up
    under [BASE_PATH]: the path that [create_sprite_frames] lists is the
    one of the folder name alone. *)
Theorem posix_absolute_folder_name_leaves_base
    (w : World) (folder_name display_name enum_name : string) :
  startswith folder_name "/" →
  fspath (truediv BASE_PATH folder_name) = fspath (mkPath folder_name) ∧
  Listdir (fspath (mkPath folder_name))
    ∈ (run (create_sprite_frames folder_name display_name enum_name) w).1.
Proof.
  intros Habs.
  assert (Hp : fspath (truediv BASE_PATH folder_name)
               = fspath (mkPath folder_name)).
  { unfold fspath, truediv, mkPath, BASE_PATH; simpl.
    unfold PosixPath.to_str, PosixPath.raw_path; simpl.
    unfold PosixPath.join2.
    unfold PosixPath.sep_str, PosixPath.sep.
    by destruct (startswith folder_name "/"). }
  split; [done|]. rewrite <-Hp.
  destruct (run_create_first_event w folder_name display_name enum_name)
    as [tr ->].
  apply list_elem_of_here.
Qed.

Lemma posix_parse_simple (c : ascii) (b f : string) :
  Ascii.eqb c PosixPath.sep = false →
  contains PosixPath.sep f = false → f ≠ EmptyString → f ≠ "." →
  PosixPath.parse_path (String c b +:+ PosixPath.sep_str +:+ f)
  = (EmptyString,
     List.filter PosixPath.keep_part (PosixPath.split (String c b)) ++ [f]).
Proof.
  intros Hc Hf Hne Hdot. unfold PosixPath.parse_path.
  change (String c b +:+ PosixPath.sep_str +:+ f)
    with (String c (b +:+ PosixPath.sep_str +:+ f)).
  cbn [String.eqb PosixPath.splitroot]. rewrite Hc.
  change (String c (b +:+ PosixPath.sep_str +:+ f))
    with (String c b +:+ PosixPath.sep_str +:+ f).
  rewrite posix_split_sep, (posix_split_simple f Hf), List.filter_app.
  assert (PosixPath.keep_part f = true) as Hk.
  { unfold PosixPath.keep_part.
    apply String.eqb_neq in Hne, Hdot. by rewrite Hne, Hdot. }
  cbn [List.filter]. by rewrite Hk.
Qed.

(** A path made of a relative base without a final slash and a simple
    name: the two joined by a slash. *)
Lemma posix_to_str_simple (c : ascii) (b f : string) :
  Ascii.eqb c PosixPath.sep = false →
  endswith (String c b) PosixPath.sep_str = false →
  PosixPath.to_str [String c b] = String c b →
  String c b ≠ "." →
  contains PosixPath.sep f = false → f ≠ EmptyString → f ≠ "." →
  PosixPath.to_str [String c b; f] = String c b +:+ "/" +:+ f.
Proof.
  intros Hc Hend Hbase Hbdot Hf Hne Hdot.
  unfold PosixPath.to_str in *. cbn [PosixPath.raw_path PosixPath.join_all foldl] in *.
  unfold PosixPath.join2.
  rewrite (posix_simple_not_absolute f Hf), Hend. cbn [String.eqb].
  rewrite (posix_parse_simple c b f Hc Hf Hne Hdot).
  unfold PosixPath.parse_path in Hbase. cbn [String.eqb PosixPath.splitroot] in Hbase.
  rewrite Hc in Hbase.
  destruct (List.filter PosixPath.keep_part (PosixPath.split (String c b)))
    as [|x parts] eqn:E.
  { by destruct Hbdot. }
  rewrite posix_join_snoc by done.
  change (EmptyString +:+ join PosixPath.sep_str (x :: parts))
    with (join PosixPath.sep_str (x :: parts)) in Hbase.
  change (EmptyString +:+ ?s) with s.
  destruct (String.eqb (join PosixPath.sep_str (x :: parts)) EmptyString).
  { by destruct Hbdot. }
  rewrite Hbase.
  change (String c b +:+ PosixPath.sep_str +:+ f)
    with (String c (b +:+ PosixPath.sep_str +:+ f)).
  by cbn [String.eqb].
Qed.

(** X11. On POSIX, for a folder name without a slash, other than the empty
    name and the name of one dot, the path that [create_sprite_frames]
    lists is [BASE_PATH], a slash and the name; for the empty name and for
    one dot it is [BASE_PATH] itself. *)
Theorem posix_simple_folder_name
    (w : World) (folder_name display_name enum_name : string) :
  (contains "/" folder_name = false →
   folder_name ≠ EmptyString → folder_name ≠ "." →
   fspath (truediv BASE_PATH folder_name)
     = fspath BASE_PATH +:+ "/" +:+ folder_name ∧
   Listdir (fspath BASE_PATH +:+ "/" +:+ folder_name)
     ∈ (run (create_sprite_frames folder_name display_name enum_name) w).1) ∧
  Listdir (fspath BASE_PATH)
    ∈ (run (create_sprite_frames EmptyString display_name enum_name) w).1 ∧
  Listdir (fspath BASE_PATH)
    ∈ (run (create_sprite_frames "." display_name enum_name) w).1.
Proof.
  split; [|split].
  - intros Hf Hne Hdot.
    assert (Hp : fspath (truediv BASE_PATH folder_name)
                 = fspath BASE_PATH +:+ "/" +:+ folder_name).
    { apply (posix_to_str_simple "C"
               ":/Users/purem/OneDrive/Documents/new-game-project/assets/sprites/creatures"
               folder_name); [by vm_compute..|discriminate|done|done|done]. }
    split; [done|]. rewrite <-Hp.
    destruct (run_create_first_event w folder_name display_name enum_name)
      as [tr ->].
    apply list_elem_of_here.
  - assert (fspath BASE_PATH = fspath (truediv BASE_PATH EmptyString)) as ->
      by (by vm_compute).
    destruct (run_create_first_event w EmptyString display_name enum_name)
      as [tr ->].
    apply list_elem_of_here.
  - assert (fspath BASE_PATH = fspath (truediv BASE_PATH ".")) as ->
      by (by vm_compute).
    destruct (run_create_first_event w "." display_name enum_name)
      as [tr ->].
    apply list_elem_of_here.
Qed.

(** ** The further properties at concrete inputs *)

(** X1 at the five files and at their shuffled listing among other
    files. *)
Lemma get_frames_from_folder_same_prefixed_names_shuffled :
  run (get_frames_from_folder BASE_PATH) five_world
  = run (get_frames_from_folder BASE_PATH) shuffled_world.
Proof.
  apply (get_frames_from_folder_same_prefixed_names
           five_world shuffled_world BASE_PATH five_files shuffled_files);
    [reflexivity|reflexivity|].
  replace (filter (fun f => known_prefix f) shuffled_files)
    with (reverse five_files) by (by vm_compute).
  replace (filter (fun f => known_prefix f) five_files)
    with five_files by (by vm_compute).
  symmetry. apply reverse_Permutation.
Defined.

(** X2 at the five files, which hold both move and chase frames. *)
Lemma get_frames_from_folder_chase_unused_five :
  (run (get_frames_from_folder BASE_PATH) five_world).2
  = (run (get_frames_from_folder BASE_PATH)
       (world_of (fun _ =>
          inr (filter (fun f => ¬ startswith f "chase_") five_files)))).2.
Proof.
  apply (get_frames_from_folder_chase_unused five_world _ BASE_PATH five_files);
    [reflexivity|reflexivity|].
  exists "move_b.png". split; [|done]. by repeat constructor.
Defined.

(** X3 at the five files: two listings. *)
Lemma get_frames_from_folder_listings_five :
  (run (get_frames_from_folder BASE_PATH) five_world).1
  = replicate 2 (Listdir (fspath BASE_PATH)).
Proof.
  apply (proj1 (get_frames_from_folder_listings
                  five_world BASE_PATH five_files eq_refl)).
  exists "move_b.png". split; [|done]. by repeat constructor.
Defined.

(** X4 at the five files. *)
Lemma get_frames_from_folder_no_duplicates_five :
  ∃ stand move,
    (run (get_frames_from_folder BASE_PATH) five_world).2 = inr (stand, move) ∧
    NoDup (stand ++ move).
Proof.
  apply (get_frames_from_folder_no_duplicates five_world BASE_PATH five_files);
    [reflexivity|].
  apply (bool_decide_unpack _). by vm_compute.
Defined.

(** X5 at the five files. *)
Lemma get_frames_from_folder_within_listing_five :
  ∃ stand move,
    (run (get_frames_from_folder BASE_PATH) five_world).2 = inr (stand, move) ∧
    stand ++ move ⊆+ five_files ∧
    length stand + length move ≤ length five_files.
Proof.
  apply (get_frames_from_folder_within_listing five_world BASE_PATH five_files).
  reflexivity.
Defined.

(** X6 at the frames of the five files. *)
Lemma get_frames_from_folder_fixed_point_five :
  (run (get_frames_from_folder BASE_PATH)
     (world_of (fun _ =>
        inr (["stand_0.png"; "stand_1.png"] ++ ["move_a.png"; "move_b.png"])))).2
  = inr (["stand_0.png"; "stand_1.png"], ["move_a.png"; "move_b.png"]).
Proof.
  apply (get_frames_from_folder_fixed_point five_world _ BASE_PATH BASE_PATH);
    reflexivity.
Defined.

(** X7 at a folder with the five files: nothing is printed. *)
Lemma create_sprite_frames_warns_iff_five :
  printed (run (create_sprite_frames "neon_bat" "Neon Bat" "NEON_BAT")
             five_world).1 = [].
Proof.
  apply (proj2 (proj2 (create_sprite_frames_warns_iff
                         five_world "neon_bat" "Neon Bat" "NEON_BAT"
                         five_files eq_refl))).
  split.
  - exists "stand_0.png". split; [|done]. by repeat constructor.
  - exists "move_a.png". split; [|by left]. by repeat constructor.
Defined.

(** X8 from the five files to the shuffled folder, which has them and two
    more. *)
Lemma create_sprite_frames_more_files_no_warning_shuffled :
  printed (run (create_sprite_frames "neon_bat" "Neon Bat" "NEON_BAT")
             shuffled_world).1 = [].
Proof.
  apply (create_sprite_frames_more_files_no_warning
           five_world shuffled_world "neon_bat" "Neon Bat" "NEON_BAT"
           five_files shuffled_files); [reflexivity|reflexivity| |reflexivity].
  intros f Hf. unfold five_files in Hf.
  repeat (apply elem_of_cons in Hf as [-> | Hf]);
    [by repeat constructor..|by apply elem_of_nil in Hf].
Defined.

(** X9 at two stand frames. *)
Lemma frame_entries_distinct_two :
  NoDup (frame_entry "robo" <$> ["stand_0.png"; "stand_1.png"]).
Proof.
  apply frame_entries_distinct.
  apply (bool_decide_unpack _). by vm_compute.
Defined.

(** X10 at an absolute folder name. *)
Lemma posix_absolute_folder_name_leaves_base_tmp :
  fspath (truediv BASE_PATH "/tmp/sprites") = fspath (mkPath "/tmp/sprites") ∧
  Listdir (fspath (mkPath "/tmp/sprites"))
    ∈ (run (create_sprite_frames "/tmp/sprites" "Tmp" "TMP") empty_world).1.
Proof.
  apply (posix_absolute_folder_name_leaves_base empty_world
           "/tmp/sprites" "Tmp" "TMP").
  done.
Defined.

(** X11 at the folder of an entry of the table. *)
Lemma posix_simple_folder_name_krip :
  fspath (truediv BASE_PATH "krip") = fspath BASE_PATH +:+ "/" +:+ "krip" ∧
  Listdir (fspath BASE_PATH +:+ "/" +:+ "krip")
    ∈ (run (create_sprite_frames "krip" "Krip" "KRIP") empty_world).1.
Proof.
  apply (proj1 (posix_simple_folder_name empty_world "krip" "Krip" "KRIP"));
    done.
Defined.
